(** * ThreadPoolUtil: a shallow embedding of threadpool.hpp / threadpool.cpp

    The development follows the two source files class by class:
    [Any], [Semaphore], [Result], [Task], [Thread] and [ThreadPool].
    Objects that the C++ code reaches through pointers ([Task] through
    [shared_ptr<Task>], [Result] through [Result*]) live in a [Heap]; member
    functions are computations in a small monad whose results say how a call
    ends: it returns, an exception leaves it, the calling thread waits on a
    condition that does not hold, or the behaviour is undefined. *)

From Stdlib Require Import ZArith.
From stdpp Require Import gmap strings list.

(** ** How a call ends *)

(** An exception object.  The library itself only throws the string literal
    of [Any::cast_]; a user-defined [run] may throw anything, named here by a
    message. *)
Definition Exn := string.

Inductive cxx (S A : Type) : Type :=
| Returns (a : A) (s : S)      (* normal return with the state left behind *)
| Throws (e : Exn) (s : S)     (* an exception propagates out of the call *)
| Blocks (s : S)               (* the thread waits: the condition is false *)
| Undefined.                   (* undefined behaviour *)
Arguments Returns {S A} a s.
Arguments Throws {S A} e s.
Arguments Blocks {S A} s.
Arguments Undefined {S A}.

Definition M (S A : Type) : Type := S -> cxx S A.

Definition ret {S A} (a : A) : M S A := fun s => Returns a s.

Definition bind {S A B} (c : M S A) (k : A -> M S B) : M S B :=
  fun s =>
    match c s with
    | Returns a s' => k a s'
    | Throws e s' => Throws e s'
    | Blocks s' => Blocks s'
    | Undefined => Undefined
    end.

Notation "'let*' x ':=' c 'in' k" := (bind c (fun x => k))
  (at level 10, x name, c at level 100, k at level 200).
Notation "c ';;' k" := (bind c (fun _ => k))
  (at level 100, k at level 200, right associativity).

Definition get_state {S} : M S S := fun s => Returns s s.
Definition put_state {S} (s : S) : M S unit := fun _ => Returns tt s.
Definition throw {S A} (e : Exn) : M S A := fun s => Throws e s.
Definition block {S A} : M S A := fun s => Blocks s.
Definition undefined {S A} : M S A := fun _ => Undefined.

(** The state a call leaves behind, however it ends. *)
Definition state_of {S A} (c : cxx S A) : option S :=
  match c with
  | Returns _ s | Throws _ s | Blocks s => Some s
  | Undefined => None
  end.

(** Run a computation on one component of a pair of states. *)
Definition on_fst {S T A} (c : M S A) : M (S * T) A :=
  fun st =>
    match c (fst st) with
    | Returns a s' => Returns a (s', snd st)
    | Throws e s' => Throws e (s', snd st)
    | Blocks s' => Blocks (s', snd st)
    | Undefined => Undefined
    end.

Definition on_snd {S T A} (c : M T A) : M (S * T) A :=
  fun st =>
    match c (snd st) with
    | Returns a t' => Returns a (fst st, t')
    | Throws e t' => Throws e (fst st, t')
    | Blocks t' => Blocks (fst st, t')
    | Undefined => Undefined
    end.

(** ** Machine integers *)

Definition UINT_WIDTH : Z := 32.
Definition UINT_MODULUS : Z := 2 ^ UINT_WIDTH.
Definition INT_MAX : Z := 2 ^ 31 - 1.

(** Conversion to [unsigned int], and arithmetic on it: modulo [2^32]. *)
Definition to_uint (z : Z) : Z := z mod UINT_MODULUS.

(** ** class Any *)

(** The types a value put in an [Any] can have.  [Derive<T>] is a distinct
    class for every [T]; a small universe of them is enough to tell matching
    from non-matching casts. *)
Inductive CType : Type :=
| TInt | TUInt | TLong | TBool | TChar | TCharPtr | TStdString.

Global Instance CType_eq_dec : EqDecision CType.
Proof. solve_decision. Defined.

Definition denote (T : CType) : Type :=
  match T with
  | TInt | TUInt | TLong => Z
  | TBool => bool
  | TChar => Ascii.ascii
  | TCharPtr => string         (* const char*: the characters pointed to *)
  | TStdString => string
  end.

Module Any.

(** [unique_ptr<Base> base_ptr]: null, or owning a [Derive<T>] with its
    [data_]. *)
Definition t : Type := option { T : CType & denote T }.

(** [Any() = default] *)
Definition default : t := None.

(** [template<typename T> Any(T data)] *)
Definition make (T : CType) (data : denote T) : t := Some (existT T data).

(** [dynamic_cast<Derive<T>*>(base_ptr.get())]: the pointer itself when the
    object's class is [Derive<T>], null otherwise (and for a null
    [base_ptr]). *)
Definition dynamic_cast (T : CType) (a : t) : option (denote T) :=
  match a with
  | None => None
  | Some (existT U data) =>
      match decide (U = T) with
      | left e => Some (eq_rect U denote data T e)
      | right _ => None
      end
  end.

Definition unmatch : Exn := "type is unmatch!".

(** [template<typename T> T cast_()] *)
Definition cast_ {S} (T : CType) (a : t) : M S (denote T) :=
  match dynamic_cast T a with
  | None => throw unmatch
  | Some data_ => ret data_
  end.

End Any.

(** ** class Semaphore *)

Module Semaphore.

Record t : Type := mk { resource_ : Z }.

(** [Semaphore(int resource = 0)] *)
Definition make (resource : Z) : t := mk resource.

(** [wait()]: [cv.wait] leaves the thread waiting until
    [resource_ > 0]; then [resource_--]. *)
Definition wait : M t unit :=
  let* s := get_state in
  if (0 <? resource_ s)%Z then put_state (mk (resource_ s - 1)) else block.

(** [post()]: [resource_++] on an [int] (overflow is undefined), then
    [notify_all]. *)
Definition post : M t unit :=
  let* s := get_state in
  if (resource_ s <? INT_MAX)%Z then put_state (mk (resource_ s + 1))
  else undefined.

End Semaphore.

(** ** class Result and class Task *)

(** Addresses of heap objects: what a [shared_ptr<Task>] or a [Result*]
    holds when it is not null. *)
Definition addr := nat.

Module Result.

Record t : Type := mk {
  anyres : Any.t;
  sem : Semaphore.t;
  task_ : option addr;       (* shared_ptr<Task> *)
  isValid_ : bool
}.

(** Run a member function of the [sem] member. *)
Definition on_sem {A} (c : M Semaphore.t A) : M t A :=
  fun r =>
    match c (sem r) with
    | Returns a s' => Returns a (mk (anyres r) s' (task_ r) (isValid_ r))
    | Throws e s' => Throws e (mk (anyres r) s' (task_ r) (isValid_ r))
    | Blocks s' => Blocks (mk (anyres r) s' (task_ r) (isValid_ r))
    | Undefined => Undefined
    end.

(** The value [return ""] builds: [Any(T data)] at [T = const char*]. *)
Definition empty_literal : Any.t := Any.make TCharPtr "".

(** [Any Result::get()].  [return move(anyres)] move-constructs the
    returned [Any]: its [base_ptr] takes the pointer and [anyres] is left
    null. *)
Definition get : M t Any.t :=
  let* r := get_state in
  if negb (isValid_ r) then ret empty_literal
  else
    on_sem Semaphore.wait ;;
    let* r := get_state in
    put_state (mk Any.default (sem r) (task_ r) (isValid_ r)) ;;
    ret (anyres r).

(** [void Result::setAny(Any any)] *)
Definition setAny (any : Any.t) : M t unit :=
  let* r := get_state in
  put_state (mk any (sem r) (task_ r) (isValid_ r)) ;;
  on_sem Semaphore.post.

End Result.

Module Task.

(** What the override of the pure virtual [run] does when called: it
    returns an [Any] or an exception leaves it. *)
Inductive RunBody : Type :=
| RunReturns (a : Any.t)
| RunThrows (e : Exn).

Record t : Type := mk {
  result : option addr;      (* Result* *)
  run : RunBody
}.

(** [Task::Task() : result(nullptr)], for a derived class with the given
    [run]. *)
Definition make (run : RunBody) : t := mk None run.

(** [void Task::setResult(Result* res)] *)
Definition setResult (res : option addr) : M t unit :=
  let* tk := get_state in put_state (mk res (run tk)).

End Task.

(** ** Objects in memory *)

Module Heap.

Record t : Type := mk {
  tasks : gmap addr Task.t;
  results : gmap addr Result.t;
  run_calls : list addr      (* the tasks whose [run] was called, latest first *)
}.

Definition empty : t := mk ∅ ∅ [].

(** Call a member function through a [Result*]; a pointer to no object is
    undefined behaviour. *)
Definition with_result {A} (this : addr) (c : M Result.t A) : M t A :=
  fun h =>
    match results h !! this with
    | None => Undefined
    | Some r =>
        match c r with
        | Returns a r' =>
            Returns a (mk (tasks h) (<[this := r']> (results h)) (run_calls h))
        | Throws e r' =>
            Throws e (mk (tasks h) (<[this := r']> (results h)) (run_calls h))
        | Blocks r' =>
            Blocks (mk (tasks h) (<[this := r']> (results h)) (run_calls h))
        | Undefined => Undefined
        end
    end.

(** Call a member function through a [Task*]. *)
Definition with_task {A} (this : addr) (c : M Task.t A) : M t A :=
  fun h =>
    match tasks h !! this with
    | None => Undefined
    | Some tk =>
        match c tk with
        | Returns a tk' =>
            Returns a (mk (<[this := tk']> (tasks h)) (results h) (run_calls h))
        | Throws e tk' =>
            Throws e (mk (<[this := tk']> (tasks h)) (results h) (run_calls h))
        | Blocks tk' =>
            Blocks (mk (<[this := tk']> (tasks h)) (results h) (run_calls h))
        | Undefined => Undefined
        end
    end.

(** [make_shared<Derived>()] at address [this]. *)
Definition new_Task (this : addr) (run : Task.RunBody) : M t unit :=
  fun h =>
    Returns tt (mk (<[this := Task.make run]> (tasks h)) (results h)
                   (run_calls h)).

(** [Result::Result(shared_ptr<Task> task, bool isValid = true)],
    constructing the object at address [this]: the members are initialised,
    then the body calls [task_->setResult(this)]. *)
Definition new_Result (this : addr) (task : option addr) (isValid : bool)
  : M t unit :=
  (fun h =>
     Returns tt
       (mk (tasks h)
           (<[this := Result.mk Any.default (Semaphore.make 0) task isValid]>
              (results h))
           (run_calls h))) ;;
  match task with
  | None => undefined
  | Some tk => with_task tk (Task.setResult (Some this))
  end.

(** Read the object a [Task*] points to. *)
Definition load_task (this : addr) : M t Task.t :=
  fun h =>
    match tasks h !! this with
    | None => Undefined
    | Some tk => Returns tk h
    end.

(** A call of the virtual [run()] on the task at [this]. *)
Definition call_run (this : addr) : M t Any.t :=
  fun h =>
    match tasks h !! this with
    | None => Undefined
    | Some tk =>
        let h' := mk (tasks h) (results h) (this :: run_calls h) in
        match Task.run tk with
        | Task.RunReturns a => Returns a h'
        | Task.RunThrows e => Throws e h'
        end
    end.

(** [void Task::exec()] *)
Definition exec (this : addr) : M t unit :=
  let* tk := load_task this in
  match Task.result tk with
  | None => ret tt
  | Some res =>
      let* any := call_run this in
      with_result res (Result.setAny any)
  end.

End Heap.

(** ** class Thread *)

Module Thread.

(** [func] is [bind(&ThreadPool::threadFunc, this)] for every [Thread] the
    pool makes, so the object is described by what [begin] has done with
    it: the number of OS threads created to run [func] and detached. *)
Record t : Type := mk { detached : nat }.

(** [Thread::Thread(ThreadFunc fc)] *)
Definition make : t := mk 0.

(** [void Thread::begin()]: [thread t(func); t.detach();] *)
Definition begin (th : t) : t := mk (S (detached th)).

End Thread.

(** ** class ThreadPool *)

Inductive PoolMode : Type := MODE_FIXED | MODE_CACHED.

Definition TASK_MAX_THREADPOOL : Z := 1024.

(** [cv.wait_for(lock, timeout, pred)]: returns [true] once [pred] holds,
    [false] when the timeout elapses with [pred] still false; [timed_out]
    says which of the two happens first when [pred] is false.  Without
    either the thread keeps waiting. *)
Definition wait_for {S} (pred : S -> bool) (timed_out : bool) : M S bool :=
  let* s := get_state in
  if pred s then ret true else if timed_out then ret false else block.

(** [cv.wait(lock, pred)] *)
Definition wait {S} (pred : S -> bool) : M S unit :=
  let* s := get_state in
  if pred s then ret tt else block.

Module ThreadPool.

(** The members some member function reads or writes, and [isRunning].
    [threadCapacity], [currentThreadSize] and [idleThreadSize] are declared
    and never used. *)
Record t : Type := mk {
  threads : list Thread.t;           (* vector<unique_ptr<Thread>> *)
  initThreadSize : Z;                (* size_t *)
  taskque : list (option addr);      (* queue<shared_ptr<Task>>, front first *)
  taskSize : Z;                      (* atomic_uint *)
  taskCapacity : Z;                  (* int *)
  poolMode : PoolMode;
  isRunning : bool
}.

(** [ThreadPool::ThreadPool()].  The initialiser list leaves [isRunning]
    out: its value is whatever the storage holds. *)
Definition make (indeterminate : bool) : t :=
  mk [] 0 [] 0 TASK_MAX_THREADPOOL MODE_FIXED indeterminate.


(** [void setTaskCapacity(int capacity)]: [taskSize = capacity;] *)
Definition setTaskCapacity (capacity : Z) : M t unit :=
  let* p := get_state in
  put_state (mk (threads p) (initThreadSize p) (taskque p) (to_uint capacity)
                (taskCapacity p) (poolMode p) (isRunning p)).

(** The predicate of [notFull.wait_for]: [taskCapacity > taskSize], an
    [int] against an [unsigned]: compared as [unsigned]. *)
Definition notFull (p : t) : bool :=
  (taskSize p <? to_uint (taskCapacity p))%Z.

(** The predicate of [notEmpty.wait]: [taskSize > 0]. *)
Definition notEmpty (p : t) : bool := (0 <? taskSize p)%Z.

(** [taskque.emplace(task); taskSize++;] *)
Definition enqueue (task : option addr) (p : t) : t :=
  mk (threads p) (initThreadSize p) (taskque p ++ [task])
     (to_uint (taskSize p + 1)) (taskCapacity p) (poolMode p) (isRunning p).

(** The statements of [submitTask], from taking the lock to
    [notEmpty.notify_all()]: the locked block of a submission.  The value
    [wait_for] returns is dropped. *)
Definition submitTask_locked (task : option addr) (timed_out : bool)
  : M t unit :=
  wait_for notFull timed_out ;;
  let* p := get_state in
  put_state (enqueue task p).

(** [Result submitTask(shared_ptr<Task> task)].  After the statements
    control reaches the closing brace: the function returns [Result], the
    body has no [return] statement and constructs no [Result], and flowing
    off the end of such a function is undefined. *)
Definition submitTask (task : option addr) (timed_out : bool)
  : M t Result.t :=
  submitTask_locked task timed_out ;;
  undefined.

(** The locked block of one turn of the loop of [threadFunc]:
    [task = taskque.front(); taskque.pop(); taskSize--;].  [front] on an
    empty queue is undefined. *)
Definition threadFunc_locked : M t (option addr) :=
  wait notEmpty ;;
  let* p := get_state in
  match taskque p with
  | [] => undefined
  | task :: rest =>
      put_state (mk (threads p) (initThreadSize p) rest
                    (to_uint (taskSize p - 1)) (taskCapacity p) (poolMode p)
                    (isRunning p)) ;;
      ret task
  end.

(** One turn of [for(;;)] in [threadFunc]: the locked block, then
    [if(task != nullptr) task->exec();] with the lock released. *)
Definition threadFunc_turn : M (t * Heap.t) unit :=
  let* task := on_fst threadFunc_locked in
  match task with
  | None => ret tt
  | Some tk => on_snd (Heap.exec tk)
  end.

(** The first [n] turns of the loop of [threadFunc]; the loop has no
    [break] and no [return], so a [Returns] here means the thread is about
    to start turn [n + 1]. *)
Fixpoint threadFunc (n : nat) : M (t * Heap.t) unit :=
  match n with
  | O => ret tt
  | S n' => threadFunc_turn ;; threadFunc n'
  end.

(** [threads[i]->begin()]; an index past the end is undefined. *)
Definition begin_thread (i : nat) : M t unit :=
  let* p := get_state in
  match threads p !! i with
  | None => undefined
  | Some _ =>
      put_state (mk (alter Thread.begin i (threads p)) (initThreadSize p)
                    (taskque p) (taskSize p) (taskCapacity p) (poolMode p)
                    (isRunning p))
  end.

Fixpoint begin_threads (idx : list nat) : M t unit :=
  match idx with
  | [] => ret tt
  | i :: idx' => begin_thread i ;; begin_threads idx'
  end.

(** [void start(int size)].  A negative [size] becomes a [size_t] above
    every [int], and [i++] overflows before the loop ends. *)
Definition start (size : Z) : M t unit :=
  if (size <? 0)%Z then undefined
  else
    let* p := get_state in
    put_state (mk (threads p ++ replicate (Z.to_nat size) Thread.make) size
                  (taskque p) (taskSize p) (taskCapacity p) (poolMode p)
                  (isRunning p)) ;;
    begin_threads (seq 0 (Z.to_nat size)).

(** [void stop() { }] *)
Definition stop : M t unit := ret tt.

(** The number of OS threads running [threadFunc]. *)
Definition workers (p : t) : nat :=
  foldr (fun th n => (Thread.detached th + n)%nat) 0%nat (threads p).

(** *** Sequences of locked blocks

    Every change of the queue happens with [taskqueMutex] held: the queue
    and the count go through a sequence of locked blocks, those of
    [submitTask] and those of [threadFunc].  [run_ops] follows the pool
    through such a sequence, block by block.  What the thread that called
    [submitTask] does once its block is over is not part of it: that is the
    closing brace of [submitTask], undefined. *)
Inductive Op : Type :=
| OpSubmit (task : option addr) (timed_out : bool)
| OpDequeue.


(** Run a sequence; the result lists the tasks the workers took, in the
    order they took them. *)
Fixpoint run_ops (ops : list Op) : M t (list (option addr)) :=
  match ops with
  | [] => ret []
  | OpSubmit task timed_out :: ops' =>
      submitTask_locked task timed_out ;; run_ops ops'
  | OpDequeue :: ops' =>
      let* task := threadFunc_locked in
      let* rest := run_ops ops' in
      ret (task :: rest)
  end.

End ThreadPool.

(** ** A worker as a thread *)

(** What has become of the OS thread that [begin] created to run
    [threadFunc], seen after at most [n] turns of the loop: it is about to
    start its next turn, it waits on [notEmpty], or an exception has left
    [threadFunc], and an exception leaving the function of a [std::thread]
    calls [std::terminate], which ends the program. *)
Inductive WorkerEnd : Type :=
| Looping (st : ThreadPool.t * Heap.t)
| Waiting (st : ThreadPool.t * Heap.t)
| Terminated (e : Exn) (st : ThreadPool.t * Heap.t)
| WorkerUndefined.

Definition worker_thread (n : nat) (st : ThreadPool.t * Heap.t) : WorkerEnd :=
  match ThreadPool.threadFunc n st with
  | Returns _ st' => Looping st'
  | Blocks st' => Waiting st'
  | Throws e st' => Terminated e st'
  | Undefined => WorkerUndefined
  end.

(** ** Repeated calls *)

(** [n] calls of [c], one after the other. *)
Fixpoint times {S} (n : nat) (c : M S unit) : M S unit :=
  match n with
  | O => ret tt
  | S n' => c ;; times n' c
  end.

(** * Properties *)

(** Unfold the monad down to a [match] on the outcome of the first step. *)
Ltac unfold_monad :=
  unfold wait_for, wait in *;
  unfold bind, ret, get_state, put_state, throw, block, undefined in *;
  cbv beta iota in *.

(** ** Any *)

Lemma dynamic_cast_same (T : CType) (v : denote T) :
  Any.dynamic_cast T (Any.make T v) = Some v.
Proof. destruct T; reflexivity. Qed.

Lemma dynamic_cast_other (T U : CType) (v : denote T) :
  U <> T -> Any.dynamic_cast U (Any.make T v) = None.
Proof.
  intros Hne. unfold Any.dynamic_cast, Any.make.
  destruct (decide (T = U)) as [->|_]; [congruence | reflexivity].
Qed.

Lemma dynamic_cast_default (T : CType) :
  Any.dynamic_cast T Any.default = None.
Proof. reflexivity. Qed.

(** C7. An [Any] built from a value [v] of type [T] gives [v] back from
    [cast_<T>()], in whatever context the call is made; asked for any other
    type [U] the call throws the literal "type is unmatch!" and converts
    nothing. *)
Theorem Any_cast_checks_type {S : Type} (T U : CType) (v : denote T) (s : S) :
  Any.cast_ T (Any.make T v) s = Returns v s /\
  (U <> T -> Any.cast_ U (Any.make T v) s = Throws Any.unmatch s).
Proof.
  split.
  - unfold Any.cast_. now rewrite dynamic_cast_same.
  - intros Hne. unfold Any.cast_. now rewrite dynamic_cast_other.
Qed.

Lemma Any_cast_checks_type_string_int :
  Any.cast_ TStdString (Any.make TStdString "hello") tt = Returns "hello" tt /\
  Any.cast_ TInt (Any.make TStdString "hello") tt = Throws Any.unmatch tt.
Proof.
  destruct (Any_cast_checks_type TStdString TInt "hello" tt) as [Hsame Hother].
  split; [exact Hsame | apply Hother; discriminate].
Defined.

(** ** Result *)

Lemma get_valid_posted (r : Result.t) :
  Result.isValid_ r = true ->
  (0 < Semaphore.resource_ (Result.sem r))%Z ->
  Result.get r =
    Returns (Result.anyres r)
      (Result.mk Any.default
         (Semaphore.mk (Semaphore.resource_ (Result.sem r) - 1))
         (Result.task_ r) true).
Proof.
  intros Hv Hpos. apply Z.ltb_lt in Hpos.
  unfold Result.get, Result.on_sem, Semaphore.wait. unfold_monad.
  rewrite Hv. cbn. rewrite Hpos. cbn. now rewrite Hv.
Qed.

Lemma get_valid_unposted (r : Result.t) :
  Result.isValid_ r = true ->
  (Semaphore.resource_ (Result.sem r) <= 0)%Z ->
  Result.get r = Blocks r.
Proof.
  intros Hv Hle. apply Z.ltb_ge in Hle.
  unfold Result.get, Result.on_sem, Semaphore.wait. unfold_monad.
  rewrite Hv. cbn. rewrite Hle. cbn. now destruct r as [a [n] tk v].
Qed.

Lemma setAny_posts (r : Result.t) (any : Any.t) :
  (Semaphore.resource_ (Result.sem r) < INT_MAX)%Z ->
  Result.setAny any r =
    Returns tt
      (Result.mk any (Semaphore.mk (Semaphore.resource_ (Result.sem r) + 1))
         (Result.task_ r) (Result.isValid_ r)).
Proof.
  intros Hlt. apply Z.ltb_lt in Hlt.
  unfold Result.setAny, Result.on_sem, Semaphore.post. unfold_monad.
  cbn. now rewrite Hlt.
Qed.

(** C6. On a [Result] whose [isValid_] is false, [get()] returns at once the
    [Any] made from the empty string literal: the semaphore is not waited
    on, whatever its count, and the object is left as it was. *)
Theorem Result_get_invalid (r : Result.t) :
  Result.isValid_ r = false ->
  Result.get r = Returns Result.empty_literal r.
Proof.
  intros Hv. unfold Result.get. unfold_monad. now rewrite Hv.
Qed.

(** The same through the constructor: a [Result] constructed with
    [isValid = false] for a task in memory answers [get()] at once, and the
    call changes nothing in memory. *)
Lemma get_after_invalid_construction (h : Heap.t) (this tk : addr)
    (t0 : Task.t) :
  Heap.tasks h !! tk = Some t0 ->
  exists h1,
    Heap.new_Result this (Some tk) false h = Returns tt h1 /\
    Heap.with_result this Result.get h1 = Returns Result.empty_literal h1.
Proof.
  intros Hl. eexists. split.
  - unfold Heap.new_Result, bind, Heap.with_task.
    cbn [Heap.tasks Heap.results Heap.run_calls]. rewrite Hl. reflexivity.
  - unfold Heap.with_result. cbn [Heap.tasks Heap.results Heap.run_calls].
    rewrite lookup_insert_eq, Result_get_invalid by reflexivity.
    now rewrite insert_insert_eq.
Qed.

Lemma Result_get_invalid_rejected :
  Result.get (Result.mk Any.default (Semaphore.make 0) (Some 0%nat) false) =
  Returns Result.empty_literal
    (Result.mk Any.default (Semaphore.make 0) (Some 0%nat) false).
Proof. apply Result_get_invalid. reflexivity. Defined.

(** The claim of C4 read on the code: a valid [Result] on which a worker has
    called [setAny] once.  The first [get()] returns the value; were the
    value cached, the second would return it too. *)
Lemma Result_get_not_idempotent :
  ~ (forall (v : Any.t) (r1 : Result.t),
       Result.get
         (Result.mk (Any.make TInt 42%Z) (Semaphore.mk 1) (Some 0%nat) true) =
         Returns v r1 ->
       exists r2, Result.get r1 = Returns v r2).
Proof.
  intros Hclaim.
  destruct (Hclaim (Any.make TInt 42%Z)
              (Result.mk Any.default (Semaphore.mk 0) (Some 0%nat) true)
              eq_refl) as [r2 Hsecond].
  discriminate Hsecond.
Qed.

(** C4, as the code has it.  A [get()] on a valid [Result] that returns
    hands out the stored [Any] and takes one unit from the semaphore, and it
    leaves [anyres] empty: nothing is cached.  The next [get()] waits on the
    semaphore when the count was [1] (a single [setAny]); when the count was
    larger it returns, but the empty [Any], not the value. *)
Theorem Result_get_moves_value_out (r r1 : Result.t) (v : Any.t) :
  Result.isValid_ r = true ->
  Result.get r = Returns v r1 ->
  v = Result.anyres r /\
  Result.anyres r1 = Any.default /\
  Semaphore.resource_ (Result.sem r1) =
    (Semaphore.resource_ (Result.sem r) - 1)%Z /\
  (Semaphore.resource_ (Result.sem r) = 1%Z -> Result.get r1 = Blocks r1) /\
  ((1 < Semaphore.resource_ (Result.sem r))%Z ->
   exists r2, Result.get r1 = Returns Any.default r2).
Proof.
  intros Hv Hget.
  destruct (Z.lt_ge_cases 0 (Semaphore.resource_ (Result.sem r))) as [Hpos|Hle].
  - rewrite (get_valid_posted r Hv Hpos) in Hget.
    injection Hget as <- <-. do 3 (split; [reflexivity|]). split.
    + intros Hone. apply get_valid_unposted; cbn; [reflexivity | lia].
    + intros Hmore. eexists. apply get_valid_posted; cbn; [reflexivity | lia].
  - rewrite (get_valid_unposted r Hv Hle) in Hget. discriminate Hget.
Qed.

Lemma Result_get_moves_value_out_once :
  Result.get (Result.mk Any.default (Semaphore.mk 0) (Some 0%nat) true) =
  Blocks (Result.mk Any.default (Semaphore.mk 0) (Some 0%nat) true).
Proof.
  pose proof
    (Result_get_moves_value_out
       (Result.mk (Any.make TInt 42%Z) (Semaphore.mk 1) (Some 0%nat) true)
       (Result.mk Any.default (Semaphore.mk 0) (Some 0%nat) true)
       (Any.make TInt 42%Z) eq_refl eq_refl) as (_ & _ & _ & Hblocks & _).
  exact (Hblocks eq_refl).
Defined.

(** ** Task::exec *)

Lemma load_task_found (h : Heap.t) (this : addr) (tk : Task.t) :
  Heap.tasks h !! this = Some tk -> Heap.load_task this h = Returns tk h.
Proof. intros Hl. unfold Heap.load_task. now rewrite Hl. Qed.

Lemma exec_unlinked (h : Heap.t) (this : addr) (tk : Task.t) :
  Heap.tasks h !! this = Some tk ->
  Task.result tk = None ->
  Heap.exec this h = Returns tt h.
Proof.
  intros Hl Hnull. unfold Heap.exec, bind.
  rewrite (load_task_found _ _ _ Hl), Hnull. reflexivity.
Qed.

Lemma exec_run_throws (h : Heap.t) (this res : addr) (tk : Task.t) (e : Exn) :
  Heap.tasks h !! this = Some tk ->
  Task.result tk = Some res ->
  Task.run tk = Task.RunThrows e ->
  Heap.exec this h =
    Throws e (Heap.mk (Heap.tasks h) (Heap.results h) (this :: Heap.run_calls h)).
Proof.
  intros Hl Hres Hrun. unfold Heap.exec, bind.
  rewrite (load_task_found _ _ _ Hl), Hres.
  unfold Heap.call_run. now rewrite Hl, Hrun.
Qed.

Lemma exec_run_returns (h : Heap.t) (this res : addr) (tk : Task.t)
    (r : Result.t) (a : Any.t) :
  Heap.tasks h !! this = Some tk ->
  Task.result tk = Some res ->
  Heap.results h !! res = Some r ->
  Task.run tk = Task.RunReturns a ->
  (Semaphore.resource_ (Result.sem r) < INT_MAX)%Z ->
  Heap.exec this h =
    Returns tt
      (Heap.mk (Heap.tasks h)
         (<[res := Result.mk a
                     (Semaphore.mk (Semaphore.resource_ (Result.sem r) + 1))
                     (Result.task_ r) (Result.isValid_ r)]> (Heap.results h))
         (this :: Heap.run_calls h)).
Proof.
  intros Hl Hres Hr Hrun Hlt. unfold Heap.exec, bind.
  rewrite (load_task_found _ _ _ Hl), Hres.
  unfold Heap.call_run. rewrite Hl, Hrun.
  unfold Heap.with_result. cbn [Heap.results Heap.tasks Heap.run_calls].
  rewrite Hr, (setAny_posts r a Hlt). reflexivity.
Qed.

(** Only a task with a linked [Result] has its [run] called by [exec]. *)
Lemma exec_calls_run_linked (h h' : Heap.t) (this : addr) :
  state_of (Heap.exec this h) = Some h' ->
  Heap.run_calls h' <> Heap.run_calls h ->
  exists tk res, Heap.tasks h !! this = Some tk /\ Task.result tk = Some res.
Proof.
  intros Hst Hcalls. unfold Heap.exec, bind, Heap.load_task in Hst.
  destruct (Heap.tasks h !! this) as [tk|] eqn:Hl; [|discriminate Hst].
  destruct (Task.result tk) as [res|] eqn:Hres; [now exists tk, res|].
  cbn in Hst. injection Hst as <-. now contradict Hcalls.
Qed.

(** C10. The constructor of [Task] leaves [result] null.  On a task whose
    [result] is null [exec()] returns at once and leaves memory as it was:
    [run] is not called and no [Result] is touched.  Whenever a call of
    [exec] does call [run], the task had a [Result] linked. *)
Theorem Task_exec_null_result (h : Heap.t) (this : addr) :
  (forall run, Task.result (Task.make run) = None) /\
  (forall tk,
     Heap.tasks h !! this = Some tk -> Task.result tk = None ->
     Heap.exec this h = Returns tt h) /\
  (forall h',
     state_of (Heap.exec this h) = Some h' ->
     Heap.run_calls h' <> Heap.run_calls h ->
     exists tk res, Heap.tasks h !! this = Some tk /\ Task.result tk = Some res).
Proof.
  split; [reflexivity|]. split.
  - intros tk. apply exec_unlinked.
  - intros h'. apply exec_calls_run_linked.
Qed.

Lemma Task_exec_null_result_fresh :
  Heap.exec 0
    (Heap.mk {[ 0%nat := Task.make (Task.RunReturns (Any.make TInt 7%Z)) ]}
       ∅ []) =
  Returns tt
    (Heap.mk {[ 0%nat := Task.make (Task.RunReturns (Any.make TInt 7%Z)) ]}
       ∅ []).
Proof.
  destruct (Task_exec_null_result
              (Heap.mk
                 {[ 0%nat := Task.make (Task.RunReturns (Any.make TInt 7%Z)) ]}
                 ∅ []) 0%nat) as (_ & Hnull & _).
  apply (Hnull (Task.make (Task.RunReturns (Any.make TInt 7%Z)))); reflexivity.
Defined.

(** ** The worker's turn *)

Lemma threadFunc_locked_front (p : ThreadPool.t) (task : option addr)
    (rest : list (option addr)) :
  ThreadPool.notEmpty p = true ->
  ThreadPool.taskque p = task :: rest ->
  ThreadPool.threadFunc_locked p =
    Returns task
      (ThreadPool.mk (ThreadPool.threads p) (ThreadPool.initThreadSize p) rest
         (to_uint (ThreadPool.taskSize p - 1)) (ThreadPool.taskCapacity p)
         (ThreadPool.poolMode p) (ThreadPool.isRunning p)).
Proof.
  intros Hne Hq. unfold ThreadPool.threadFunc_locked. unfold_monad.
  now rewrite Hne, Hq.
Qed.

Lemma threadFunc_locked_waits (p : ThreadPool.t) :
  ThreadPool.notEmpty p = false -> ThreadPool.threadFunc_locked p = Blocks p.
Proof.
  intros Hne. unfold ThreadPool.threadFunc_locked. unfold_monad.
  now rewrite Hne.
Qed.

(** A task that throws, linked to a valid [Result] by the constructor of
    [Result], and a pool holding it at the front of the queue. *)
Example throwing_task_heap :
  (Heap.new_Task 0 (Task.RunThrows "boom") ;;
   Heap.new_Result 0 (Some 0%nat) true) Heap.empty =
  Returns tt
    (Heap.mk {[ 0%nat := Task.mk (Some 0%nat) (Task.RunThrows "boom") ]}
       {[ 0%nat :=
            Result.mk Any.default (Semaphore.make 0) (Some 0%nat) true ]} []).
Proof. reflexivity. Qed.

(** The claim of C5 read on the code, for that task: the exception would
    stay inside [exec], the worker's turn would not end by it, and [get()]
    on the linked [Result] would return afterwards. *)
Lemma exec_lets_exception_escape :
  let h0 :=
    Heap.mk {[ 0%nat := Task.mk (Some 0%nat) (Task.RunThrows "boom") ]}
      {[ 0%nat :=
           Result.mk Any.default (Semaphore.make 0) (Some 0%nat) true ]} [] in
  let p0 := ThreadPool.enqueue (Some 0%nat) (ThreadPool.make true) in
  ~ (forall e h', Heap.exec 0 h0 <> Throws e h') /\
  ~ (forall e st, ThreadPool.threadFunc_turn (p0, h0) <> Throws e st) /\
  ~ (exists h' v h'',
       state_of (Heap.exec 0 h0) = Some h' /\
       Heap.with_result 0 Result.get h' = Returns v h'').
Proof.
  intros h0 p0. split; [|split].
  - intros Hnot. eapply Hnot. reflexivity.
  - intros Hnot. eapply Hnot. reflexivity.
  - intros (h' & v & h'' & Hst & Hget).
    injection Hst as <-. discriminate Hget.
Qed.

(** C5, as the code has it.  [exec] has no handler around [run()].

    When [run] throws, the exception leaves [exec]; [run] has been called,
    nothing is stored in the linked [Result] and its semaphore is not
    posted.  In a worker the exception leaves the turn and, [threadFunc]
    having no handler either, the thread function: the worker thread is
    terminated by it.  After a call of [exec] outside a worker, a [get()]
    on the linked [Result], valid and not yet posted, waits.

    When [run] returns, its value is stored and the semaphore posted once;
    a [get()] on the linked [Result] then returns the value, provided the
    [Result] is valid and its count was not negative. *)
Theorem Task_exec_no_handler (h : Heap.t) (this res : addr) (tk : Task.t)
    (r : Result.t) :
  Heap.tasks h !! this = Some tk ->
  Task.result tk = Some res ->
  Heap.results h !! res = Some r ->
  let called :=
    Heap.mk (Heap.tasks h) (Heap.results h) (this :: Heap.run_calls h) in
  let stored (a : Any.t) :=
    Heap.mk (Heap.tasks h)
      (<[res := Result.mk a
                  (Semaphore.mk (Semaphore.resource_ (Result.sem r) + 1))
                  (Result.task_ r) (Result.isValid_ r)]> (Heap.results h))
      (this :: Heap.run_calls h) in
  (forall e, Task.run tk = Task.RunThrows e ->
     Heap.exec this h = Throws e called /\
     (forall p rest,
        ThreadPool.notEmpty p = true ->
        ThreadPool.taskque p = Some this :: rest ->
        exists p',
          ThreadPool.threadFunc_turn (p, h) = Throws e (p', called) /\
          forall n, worker_thread (S n) (p, h) = Terminated e (p', called)) /\
     (Result.isValid_ r = true ->
      (Semaphore.resource_ (Result.sem r) <= 0)%Z ->
      exists h', Heap.with_result res Result.get called = Blocks h')) /\
  (forall a, Task.run tk = Task.RunReturns a ->
     (Semaphore.resource_ (Result.sem r) < INT_MAX)%Z ->
     Heap.exec this h = Returns tt (stored a) /\
     (Result.isValid_ r = true ->
      (0 <= Semaphore.resource_ (Result.sem r))%Z ->
      exists h', Heap.with_result res Result.get (stored a) = Returns a h')).
Proof.
  intros Hl Hres Hr called stored. split.
  - intros e Hrun.
    pose proof (exec_run_throws h this res tk e Hl Hres Hrun) as Hexec.
    split; [exact Hexec|]. split.
    + intros p rest Hne Hq.
      exists (ThreadPool.mk (ThreadPool.threads p)
                (ThreadPool.initThreadSize p) rest
                (to_uint (ThreadPool.taskSize p - 1))
                (ThreadPool.taskCapacity p) (ThreadPool.poolMode p)
                (ThreadPool.isRunning p)).
      match goal with
      | |- ?G /\ _ => assert (Hturn : G)
      end.
      { unfold ThreadPool.threadFunc_turn, bind, on_fst, on_snd.
        cbn [fst snd]. rewrite (threadFunc_locked_front p _ rest Hne Hq).
        cbn [fst snd]. rewrite Hexec. reflexivity. }
      split; [exact Hturn|].
      intros n. unfold worker_thread. cbn [ThreadPool.threadFunc].
      unfold bind. now rewrite Hturn.
    + intros Hv Hle. eexists. unfold Heap.with_result, called.
      cbn [Heap.results]. rewrite Hr, (get_valid_unposted r Hv Hle).
      reflexivity.
  - intros a Hrun Hlt. split.
    + now apply exec_run_returns with (tk := tk).
    + intros Hv Hpos. eexists. unfold Heap.with_result, stored.
      cbn [Heap.results]. rewrite lookup_insert_eq.
      rewrite get_valid_posted by (cbn; lia || exact Hv). reflexivity.
Qed.

Lemma Task_exec_no_handler_boom :
  Heap.exec 0
    (Heap.mk {[ 0%nat := Task.mk (Some 0%nat) (Task.RunThrows "boom") ]}
       {[ 0%nat :=
            Result.mk Any.default (Semaphore.make 0) (Some 0%nat) true ]} []) =
  Throws "boom"
    (Heap.mk {[ 0%nat := Task.mk (Some 0%nat) (Task.RunThrows "boom") ]}
       {[ 0%nat :=
            Result.mk Any.default (Semaphore.make 0) (Some 0%nat) true ]}
       [0%nat]).
Proof.
  destruct (Task_exec_no_handler
              (Heap.mk
                 {[ 0%nat := Task.mk (Some 0%nat) (Task.RunThrows "boom") ]}
                 {[ 0%nat :=
                      Result.mk Any.default (Semaphore.make 0) (Some 0%nat)
                        true ]} [])
              0%nat 0%nat (Task.mk (Some 0%nat) (Task.RunThrows "boom"))
              (Result.mk Any.default (Semaphore.make 0) (Some 0%nat) true))
    as [Hthrows _]; [reflexivity | reflexivity | reflexivity |].
  destruct (Hthrows "boom" eq_refl) as [Hexec _].
  exact Hexec.
Defined.

(** ** ThreadPool: configuration and submission *)

Lemma to_uint_range (z : Z) : (0 <= to_uint z < UINT_MODULUS)%Z.
Proof. unfold to_uint. apply Z.mod_pos_bound. reflexivity. Qed.

Lemma to_uint_small (z : Z) : (0 <= z < UINT_MODULUS)%Z -> to_uint z = z.
Proof. intros Hz. unfold to_uint. now apply Z.mod_small. Qed.

Lemma setTaskCapacity_effect (capacity : Z) (p : ThreadPool.t) :
  exists p',
    ThreadPool.setTaskCapacity capacity p = Returns tt p' /\
    ThreadPool.taskSize p' = to_uint capacity /\
    ThreadPool.taskCapacity p' = ThreadPool.taskCapacity p /\
    ThreadPool.taskque p' = ThreadPool.taskque p.
Proof. eexists. split; [reflexivity|]. now cbn. Qed.

(** C9, the code at a fresh pool and [setTaskCapacity(8)]: the capacity is
    still [TASK_MAX_THREADPOOL], and it is the task count that becomes [8],
    with the queue still empty. *)
Theorem setTaskCapacity_writes_taskSize :
  exists p',
    ThreadPool.setTaskCapacity 8 (ThreadPool.make true) = Returns tt p' /\
    ThreadPool.taskCapacity p' = 1024%Z /\
    ThreadPool.taskSize (ThreadPool.make true) = 0%Z /\
    ThreadPool.taskSize p' = 8%Z /\
    ThreadPool.taskque p' = [].
Proof. eexists. split; [reflexivity|]. now vm_compute. Qed.

Lemma submitTask_locked_space (task : option addr) (timed_out : bool)
    (p : ThreadPool.t) :
  ThreadPool.notFull p = true ->
  ThreadPool.submitTask_locked task timed_out p =
    Returns tt (ThreadPool.enqueue task p).
Proof.
  intros Hnf. unfold ThreadPool.submitTask_locked. unfold_monad.
  now rewrite Hnf.
Qed.

Lemma submitTask_locked_timeout (task : option addr) (p : ThreadPool.t) :
  ThreadPool.notFull p = false ->
  ThreadPool.submitTask_locked task true p =
    Returns tt (ThreadPool.enqueue task p).
Proof.
  intros Hnf. unfold ThreadPool.submitTask_locked. unfold_monad.
  now rewrite Hnf.
Qed.

Lemma submitTask_locked_waits (task : option addr) (p : ThreadPool.t) :
  ThreadPool.notFull p = false ->
  ThreadPool.submitTask_locked task false p = Blocks p.
Proof.
  intros Hnf. unfold ThreadPool.submitTask_locked. unfold_monad.
  now rewrite Hnf.
Qed.

(** The call as a whole: it waits as long as its block waits, and once the
    block is over it runs off the end of the function. *)
Lemma submitTask_waits (task : option addr) (p : ThreadPool.t) :
  ThreadPool.notFull p = false ->
  ThreadPool.submitTask task false p = Blocks p.
Proof.
  intros Hnf. unfold ThreadPool.submitTask, bind.
  now rewrite (submitTask_locked_waits task p Hnf).
Qed.

Lemma submitTask_exit (task : option addr) (timed_out : bool)
    (p p' : ThreadPool.t) :
  ThreadPool.submitTask_locked task timed_out p = Returns tt p' ->
  ThreadPool.submitTask task timed_out p = Undefined.
Proof.
  intros Hblock. unfold ThreadPool.submitTask, bind. now rewrite Hblock.
Qed.

(** The block of a submission has put the task in the queue when it is
    over; otherwise it is still waiting.  It throws nothing, and neither
    does the call: the call waits with its block or runs off the end. *)
Lemma submitTask_locked_cases (task : option addr) (timed_out : bool)
    (p : ThreadPool.t) :
  ThreadPool.submitTask_locked task timed_out p =
    Returns tt (ThreadPool.enqueue task p) \/
  ThreadPool.submitTask_locked task timed_out p = Blocks p.
Proof.
  destruct (ThreadPool.notFull p) eqn:Hnf.
  - left. now apply submitTask_locked_space.
  - destruct timed_out.
    + left. now apply submitTask_locked_timeout.
    + right. now apply submitTask_locked_waits.
Qed.

Lemma submitTask_cases (task : option addr) (timed_out : bool)
    (p : ThreadPool.t) :
  ThreadPool.submitTask task timed_out p = Undefined \/
  ThreadPool.submitTask task timed_out p = Blocks p.
Proof.
  unfold ThreadPool.submitTask, bind.
  destruct (submitTask_locked_cases task timed_out p) as [Hs|Hs]; rewrite Hs;
    [now left | now right].
Qed.



(** C1, the code at the two rejecting cases of the claim.  The blocks of
    1024 submissions fill the queue of a fresh pool.  The next call, with
    the timeout elapsing while the queue is still full, puts its task in the
    queue all the same, making 1025; then it runs off the end of the
    function: no [Result] is returned, invalid or other.  So does a call on
    a pool whose [isRunning] is false. *)
Theorem submitTask_never_rejects :
  exists full p',
    ThreadPool.run_ops (replicate 1024 (ThreadPool.OpSubmit (Some 0%nat) false))
      (ThreadPool.make true) = Returns [] full /\
    ThreadPool.notFull full = false /\
    ThreadPool.submitTask_locked (Some 1%nat) true full = Returns tt p' /\
    ThreadPool.taskque p' = replicate 1024 (Some 0%nat) ++ [Some 1%nat] /\
    ThreadPool.submitTask (Some 1%nat) true full = Undefined /\
    ThreadPool.isRunning (ThreadPool.make false) = false /\
    ThreadPool.submitTask_locked (Some 1%nat) false (ThreadPool.make false) =
      Returns tt (ThreadPool.enqueue (Some 1%nat) (ThreadPool.make false)) /\
    ThreadPool.submitTask (Some 1%nat) false (ThreadPool.make false) =
      Undefined.
Proof.
  do 2 eexists. split; [vm_compute; reflexivity|].
  split; [vm_compute; reflexivity|].
  split; [vm_compute; reflexivity|].
  split; [vm_compute; reflexivity|].
  split; [vm_compute; reflexivity|].
  repeat split; reflexivity.
Qed.

(** C2, the code at the locked blocks of 1025 submissions to a fresh pool
    with no worker taking tasks, the last one timing out on the full queue:
    the count and the length of the queue are 1025, above the capacity of
    1024. *)
Theorem queue_exceeds_capacity :
  exists p,
    ThreadPool.run_ops
      (replicate 1024 (ThreadPool.OpSubmit (Some 0%nat) false) ++
       [ThreadPool.OpSubmit (Some 1%nat) true])
      (ThreadPool.make true) = Returns [] p /\
    ThreadPool.taskCapacity p = 1024%Z /\
    ThreadPool.taskSize p = 1025%Z /\
    length (ThreadPool.taskque p) = 1025%nat.
Proof.
  eexists. split; [vm_compute; reflexivity|]. now vm_compute.
Qed.

(** ** ThreadPool: start and stop *)

(** C3, the code at [start(1)] then [stop()] on a fresh pool whose
    [isRunning] happens to hold [true].  [stop()] returns and the pool is as
    it was: the flag is still [true] and the worker thread that [begin]
    detached is still there.  Nothing has woken it and nothing has ended
    it: however many turns it is given, it waits on [notEmpty]. *)
Theorem stop_leaves_pool_running :
  exists p,
    ThreadPool.start 1 (ThreadPool.make true) = Returns tt p /\
    ThreadPool.stop p = Returns tt p /\
    ThreadPool.isRunning p = true /\
    ThreadPool.workers p = 1%nat /\
    forall n, worker_thread (S n) (p, Heap.empty) = Waiting (p, Heap.empty).
Proof.
  eexists. split; [reflexivity|]. do 3 (split; [reflexivity|]).
  intros n. reflexivity.
Qed.

(** ** ThreadPool: the order of the queue *)

Lemma threadFunc_locked_cases (p : ThreadPool.t) :
  (exists task rest,
     ThreadPool.taskque p = task :: rest /\
     ThreadPool.threadFunc_locked p =
       Returns task
         (ThreadPool.mk (ThreadPool.threads p) (ThreadPool.initThreadSize p)
            rest (to_uint (ThreadPool.taskSize p - 1))
            (ThreadPool.taskCapacity p) (ThreadPool.poolMode p)
            (ThreadPool.isRunning p))) \/
  ThreadPool.threadFunc_locked p = Blocks p \/
  (ThreadPool.taskque p = [] /\ ThreadPool.notEmpty p = true /\
   ThreadPool.threadFunc_locked p = Undefined).
Proof.
  destruct (ThreadPool.notEmpty p) eqn:Hne.
  - destruct (ThreadPool.taskque p) as [|task rest] eqn:Hq.
    + right. right. do 2 (split; [reflexivity|]).
      unfold ThreadPool.threadFunc_locked. unfold_monad. now rewrite Hne, Hq.
    + left. exists task, rest. split; [reflexivity|].
      now apply threadFunc_locked_front.
  - right. left. now apply threadFunc_locked_waits.
Qed.





(** * Further properties of the code *)

(** ** Any and Semaphore *)

(** X1. [cast_<T>()] returns a value exactly when the [Any] was built from
    that value at type [T], and the call leaves its context alone; an [Any]
    that is empty or holds another type makes it throw the literal. *)
Theorem Any_cast_returns_iff {S : Type} (T : CType) (a : Any.t)
    (v : denote T) (s s' : S) :
  (Any.cast_ T a s = Returns v s' <-> a = Any.make T v /\ s' = s) /\
  ((forall w, a <> Any.make T w) -> Any.cast_ T a s = Throws Any.unmatch s).
Proof.
  split; [split|].
  - unfold Any.cast_, Any.dynamic_cast.
    destruct a as [[U d]|]; [|discriminate].
    destruct (decide (U = T)) as [->|Hne]; [|discriminate].
    cbn. unfold ret. intros Heq. injection Heq as -> ->. now split.
  - intros [-> ->]. unfold Any.cast_. now rewrite dynamic_cast_same.
  - intros Hnot. unfold Any.cast_, Any.dynamic_cast.
    destruct a as [[U d]|]; [|reflexivity].
    destruct (decide (U = T)) as [->|Hne]; [|reflexivity].
    now destruct (Hnot d).
Qed.

Lemma Any_cast_returns_iff_bool :
  Any.cast_ TBool (Any.make TBool true) tt = Returns true tt /\
  Any.cast_ TBool Any.default tt = Throws Any.unmatch tt.
Proof.
  destruct (Any_cast_returns_iff TBool (Any.make TBool true) true tt tt)
    as [[_ Hback] _].
  destruct (Any_cast_returns_iff TBool Any.default true tt tt) as [_ Hempty].
  split; [now apply Hback | apply Hempty; discriminate].
Defined.

Lemma times_post (n : nat) :
  forall c : Z,
    (c + Z.of_nat n <= INT_MAX)%Z ->
    times n Semaphore.post (Semaphore.mk c) =
      Returns tt (Semaphore.mk (c + Z.of_nat n)).
Proof.
  induction n as [|n IH]; intros c Hle.
  - cbn. unfold ret. now rewrite Z.add_0_r.
  - cbn [times]. unfold bind at 1. unfold Semaphore.post. unfold_monad.
    cbn [Semaphore.resource_].
    destruct (c <? INT_MAX)%Z eqn:Hlt; [|apply Z.ltb_ge in Hlt; lia].
    rewrite IH by lia. do 2 f_equal. lia.
Qed.

Lemma times_wait (n : nat) :
  forall c : Z,
    (0 <= c)%Z ->
    times n Semaphore.wait (Semaphore.mk (c + Z.of_nat n)) =
      Returns tt (Semaphore.mk c).
Proof.
  induction n as [|n IH]; intros c Hle.
  - cbn. unfold ret. now rewrite Z.add_0_r.
  - cbn [times]. unfold bind at 1. unfold Semaphore.wait. unfold_monad.
    cbn [Semaphore.resource_].
    destruct (0 <? c + Z.of_nat (S n))%Z eqn:Hlt; [|apply Z.ltb_ge in Hlt; lia].
    replace (c + Z.of_nat (S n) - 1)%Z with (c + Z.of_nat n)%Z by lia.
    now apply IH.
Qed.

Lemma wait_empty_blocks (c : Z) :
  (c <= 0)%Z -> Semaphore.wait (Semaphore.mk c) = Blocks (Semaphore.mk c).
Proof.
  intros Hle. unfold Semaphore.wait. unfold_monad. cbn [Semaphore.resource_].
  destruct (0 <? c)%Z eqn:Hlt; [apply Z.ltb_lt in Hlt; lia | reflexivity].
Qed.

(** X2. The semaphore counts.  From a count [c >= 0], [n] calls of [post]
    (within [int]) followed by [n] calls of [wait] all return and bring the
    count back to [c]; one [wait] more than the units available does not
    return: from the count [n], [n] calls pass and the next one waits with
    the count at [0]. *)
Theorem Semaphore_counts (n : nat) (c : Z) :
  (0 <= c)%Z ->
  (c + Z.of_nat n <= INT_MAX)%Z ->
  (times n Semaphore.post ;; times n Semaphore.wait) (Semaphore.make c) =
    Returns tt (Semaphore.make c) /\
  (times n Semaphore.wait ;; Semaphore.wait) (Semaphore.make (Z.of_nat n)) =
    Blocks (Semaphore.make 0).
Proof.
  intros Hc Hmax. unfold Semaphore.make. split.
  - unfold bind. rewrite times_post by exact Hmax. now apply times_wait.
  - pose proof (times_wait n 0 (Z.le_refl 0)) as Hpass.
    rewrite Z.add_0_l in Hpass. unfold bind. rewrite Hpass.
    now apply wait_empty_blocks.
Qed.

Lemma Semaphore_counts_three :
  (times 3 Semaphore.post ;; times 3 Semaphore.wait) (Semaphore.make 0) =
    Returns tt (Semaphore.make 0) /\
  (times 3 Semaphore.wait ;; Semaphore.wait) (Semaphore.make 3) =
    Blocks (Semaphore.make 0).
Proof. apply (Semaphore_counts 3 0); [lia | now vm_compute]. Defined.

(** ** Result: what setAny and get do together *)

(** X3. On a valid [Result] whose semaphore count is not negative,
    [setAny(a)] followed by [get()] returns [a]; the count is back where it
    was and the slot is empty again. *)
Theorem Result_setAny_then_get (r : Result.t) (a : Any.t) :
  Result.isValid_ r = true ->
  (0 <= Semaphore.resource_ (Result.sem r) < INT_MAX)%Z ->
  (Result.setAny a ;; Result.get) r =
    Returns a (Result.mk Any.default (Result.sem r) (Result.task_ r) true).
Proof.
  destruct r as [a0 [c] tk v]. cbn. intros -> Hc.
  unfold bind. rewrite setAny_posts by (cbn; lia).
  rewrite get_valid_posted by (cbn; lia || reflexivity).
  cbn. now rewrite Z.add_simpl_r.
Qed.

Lemma Result_setAny_then_get_int :
  (Result.setAny (Any.make TInt 5%Z) ;; Result.get)
    (Result.mk Any.default (Semaphore.make 0) (Some 0%nat) true) =
  Returns (Any.make TInt 5%Z)
    (Result.mk Any.default (Semaphore.make 0) (Some 0%nat) true).
Proof.
  apply (Result_setAny_then_get
           (Result.mk Any.default (Semaphore.make 0) (Some 0%nat) true));
    [reflexivity | now vm_compute].
Defined.

(** X4. A second [setAny] before any [get] overwrites the first value. Of
    two calls of [get] that follow, the first returns the later value and
    the second returns an empty [Any]: the earlier value is never seen. *)
Theorem Result_setAny_overwrites (r : Result.t) (a1 a2 : Any.t) :
  Result.isValid_ r = true ->
  (0 <= Semaphore.resource_ (Result.sem r))%Z ->
  (Semaphore.resource_ (Result.sem r) + 1 < INT_MAX)%Z ->
  (Result.setAny a1 ;; Result.setAny a2 ;;
   let* v1 := Result.get in let* v2 := Result.get in ret (v1, v2)) r =
    Returns (a2, Any.default)
      (Result.mk Any.default (Result.sem r) (Result.task_ r) true).
Proof.
  destruct r as [a0 [c] tk v]. cbn. intros -> Hc Hmax.
  unfold bind. rewrite setAny_posts by (cbn; lia).
  rewrite setAny_posts by (cbn; lia).
  rewrite get_valid_posted by (cbn; lia || reflexivity).
  rewrite get_valid_posted by (cbn; lia || reflexivity).
  cbn. unfold ret. do 3 f_equal. lia.
Qed.

Lemma Result_setAny_overwrites_ints :
  (Result.setAny (Any.make TInt 1%Z) ;; Result.setAny (Any.make TInt 2%Z) ;;
   let* v1 := Result.get in let* v2 := Result.get in ret (v1, v2))
    (Result.mk Any.default (Semaphore.make 0) (Some 0%nat) true) =
  Returns (Any.make TInt 2%Z, Any.default)
    (Result.mk Any.default (Semaphore.make 0) (Some 0%nat) true).
Proof.
  apply (Result_setAny_overwrites
           (Result.mk Any.default (Semaphore.make 0) (Some 0%nat) true));
    [reflexivity | now vm_compute | now vm_compute].
Defined.

Lemma Result_get_invalid_state (r : Result.t) :
  Result.isValid_ r = false -> Result.get r = Returns Result.empty_literal r.
Proof. intros Hv. unfold Result.get. unfold_monad. now rewrite Hv. Qed.

(** X5. An invalid [Result] still takes what [setAny] gives it, value and
    semaphore unit, but [get()] goes on returning the empty-literal [Any]
    and consumes neither. *)
Theorem Result_invalid_keeps_sentinel (r : Result.t) (a : Any.t) :
  Result.isValid_ r = false ->
  (Semaphore.resource_ (Result.sem r) < INT_MAX)%Z ->
  (Result.setAny a ;; Result.get) r =
    Returns Result.empty_literal
      (Result.mk a (Semaphore.mk (Semaphore.resource_ (Result.sem r) + 1))
         (Result.task_ r) false).
Proof.
  intros Hv Hmax. unfold bind. rewrite setAny_posts by exact Hmax.
  rewrite Hv. now apply Result_get_invalid_state.
Qed.

Lemma Result_invalid_keeps_sentinel_int :
  (Result.setAny (Any.make TInt 5%Z) ;; Result.get)
    (Result.mk Any.default (Semaphore.make 0) (Some 0%nat) false) =
  Returns Result.empty_literal
    (Result.mk (Any.make TInt 5%Z) (Semaphore.mk 1) (Some 0%nat) false).
Proof.
  apply (Result_invalid_keeps_sentinel
           (Result.mk Any.default (Semaphore.make 0) (Some 0%nat) false));
    [reflexivity | now vm_compute].
Defined.

(** X6. What a caller can do with the answer of an invalid [Result]: the
    [Any] holds a [const char*], so [cast_<const char*>()] gives the empty
    string and a cast to any other type, [std::string] included, throws the
    literal. *)
Theorem Result_sentinel_is_char_pointer (r : Result.t) (U : CType) :
  Result.isValid_ r = false ->
  (let* v := Result.get in Any.cast_ TCharPtr v) r = Returns EmptyString r /\
  (U <> TCharPtr ->
   (let* v := Result.get in Any.cast_ U v) r = Throws Any.unmatch r).
Proof.
  intros Hv. unfold bind. rewrite (Result_get_invalid_state r Hv). split.
  - reflexivity.
  - intros Hne. unfold Any.cast_, Result.empty_literal.
    now rewrite dynamic_cast_other.
Qed.

Lemma Result_sentinel_is_char_pointer_string :
  (let* v := Result.get in Any.cast_ TStdString v)
    (Result.mk Any.default (Semaphore.make 0) (Some 0%nat) false) =
  Throws Any.unmatch
    (Result.mk Any.default (Semaphore.make 0) (Some 0%nat) false).
Proof.
  destruct (Result_sentinel_is_char_pointer
              (Result.mk Any.default (Semaphore.make 0) (Some 0%nat) false)
              TStdString eq_refl) as [_ Hother].
  apply Hother. discriminate.
Defined.

(** ** Tasks, results and the worker *)

Lemma new_Result_links (h : Heap.t) (this tk : addr) (t0 : Task.t)
    (isValid : bool) :
  Heap.tasks h !! tk = Some t0 ->
  Heap.new_Result this (Some tk) isValid h =
    Returns tt
      (Heap.mk (<[tk := Task.mk (Some this) (Task.run t0)]> (Heap.tasks h))
         (<[this := Result.mk Any.default (Semaphore.make 0) (Some tk) isValid]>
            (Heap.results h))
         (Heap.run_calls h)).
Proof.
  intros Hl. unfold Heap.new_Result, bind, Heap.with_task.
  cbn [Heap.tasks Heap.results Heap.run_calls]. now rewrite Hl.
Qed.

(** X7. The constructor of [Result] points the task at the new object, and
    a later construction for the same task points it away again.  With two
    results constructed for one task, [exec] delivers the value of [run] to
    the second: [get()] on the second returns it, [get()] on the first
    waits. *)
Theorem Result_last_constructed_wins (h : Heap.t) (tk r1 r2 : addr)
    (t0 : Task.t) (a : Any.t) :
  Heap.tasks h !! tk = Some t0 ->
  Task.run t0 = Task.RunReturns a ->
  r1 <> r2 ->
  exists h',
    (Heap.new_Result r1 (Some tk) true ;;
     Heap.new_Result r2 (Some tk) true ;;
     Heap.exec tk) h = Returns tt h' /\
    Heap.tasks h' !! tk = Some (Task.mk (Some r2) (Task.run t0)) /\
    (exists h2, Heap.with_result r2 Result.get h' = Returns a h2) /\
    (exists h1, Heap.with_result r1 Result.get h' = Blocks h1).
Proof.
  intros Hl Hrun Hne. eexists. split; [|split; [|split]].
  - unfold bind. rewrite (new_Result_links h r1 tk t0 true Hl).
    erewrite new_Result_links
      by (cbn [Heap.tasks]; apply lookup_insert_eq).
    cbn [Task.run].
    eapply exec_run_returns with (res := r2);
      cbn [Heap.tasks Heap.results];
      [apply lookup_insert_eq | reflexivity | apply lookup_insert_eq
      | exact Hrun | now vm_compute].
  - cbn [Heap.tasks]. now rewrite lookup_insert_eq.
  - eexists. unfold Heap.with_result. cbn [Heap.results].
    rewrite lookup_insert_eq.
    rewrite get_valid_posted by (cbn; lia || reflexivity). reflexivity.
  - eexists. unfold Heap.with_result. cbn [Heap.results].
    rewrite lookup_insert_ne by congruence.
    rewrite lookup_insert_ne by congruence.
    rewrite lookup_insert_eq.
    rewrite get_valid_unposted by (cbn; lia || reflexivity). reflexivity.
Qed.

Lemma Result_last_constructed_wins_two :
  exists h',
    (Heap.new_Result 1 (Some 0%nat) true ;;
     Heap.new_Result 2 (Some 0%nat) true ;;
     Heap.exec 0)
      (Heap.mk {[ 0%nat := Task.make (Task.RunReturns (Any.make TInt 7%Z)) ]}
         ∅ []) = Returns tt h' /\
    Heap.tasks h' !! 0%nat =
      Some (Task.mk (Some 2%nat) (Task.RunReturns (Any.make TInt 7%Z))) /\
    (exists h2,
       Heap.with_result 2 Result.get h' = Returns (Any.make TInt 7%Z) h2) /\
    (exists h1, Heap.with_result 1 Result.get h' = Blocks h1).
Proof.
  apply (Result_last_constructed_wins
           (Heap.mk
              {[ 0%nat := Task.make (Task.RunReturns (Any.make TInt 7%Z)) ]}
              ∅ [])
           0%nat 1%nat 2%nat
           (Task.make (Task.RunReturns (Any.make TInt 7%Z))));
    [reflexivity | reflexivity | discriminate].
Defined.

(** X8. Nothing keeps [exec] from running a task again: two calls on a
    linked task call [run] twice, post the semaphore of the [Result] twice
    and leave the value of the second call in it. *)
Theorem exec_twice_runs_twice (h : Heap.t) (tk res : addr) (t0 : Task.t)
    (r : Result.t) (a : Any.t) :
  Heap.tasks h !! tk = Some t0 ->
  Task.result t0 = Some res ->
  Heap.results h !! res = Some r ->
  Task.run t0 = Task.RunReturns a ->
  (Semaphore.resource_ (Result.sem r) + 1 < INT_MAX)%Z ->
  (Heap.exec tk ;; Heap.exec tk) h =
    Returns tt
      (Heap.mk (Heap.tasks h)
         (<[res := Result.mk a
                     (Semaphore.mk (Semaphore.resource_ (Result.sem r) + 2))
                     (Result.task_ r) (Result.isValid_ r)]> (Heap.results h))
         (tk :: tk :: Heap.run_calls h)).
Proof.
  intros Hl Hres Hr Hrun Hmax. unfold bind.
  rewrite (exec_run_returns h tk res t0 r a Hl Hres Hr Hrun) by lia.
  erewrite exec_run_returns;
    [| exact Hl | exact Hres | cbn [Heap.results]; apply lookup_insert_eq
     | exact Hrun | cbn; lia].
  cbn [Heap.tasks Heap.results Heap.run_calls Result.sem Result.task_
       Result.isValid_ Semaphore.resource_].
  rewrite insert_insert_eq. do 5 f_equal. lia.
Qed.

Lemma exec_twice_runs_twice_seven :
  (Heap.exec 0 ;; Heap.exec 0)
    (Heap.mk
       {[ 0%nat := Task.mk (Some 0%nat) (Task.RunReturns (Any.make TInt 7%Z)) ]}
       {[ 0%nat := Result.mk Any.default (Semaphore.make 0) (Some 0%nat) true ]}
       []) =
  Returns tt
    (Heap.mk
       {[ 0%nat := Task.mk (Some 0%nat) (Task.RunReturns (Any.make TInt 7%Z)) ]}
       (<[ 0%nat := Result.mk (Any.make TInt 7%Z) (Semaphore.mk 2)
                      (Some 0%nat) true ]>
          {[ 0%nat :=
               Result.mk Any.default (Semaphore.make 0) (Some 0%nat) true ]})
       [0%nat; 0%nat]).
Proof.
  refine (exec_twice_runs_twice
            (Heap.mk
               {[ 0%nat :=
                    Task.mk (Some 0%nat) (Task.RunReturns (Any.make TInt 7%Z)) ]}
               {[ 0%nat :=
                    Result.mk Any.default (Semaphore.make 0) (Some 0%nat) true ]}
               [])
            0%nat 0%nat
            (Task.mk (Some 0%nat) (Task.RunReturns (Any.make TInt 7%Z)))
            (Result.mk Any.default (Semaphore.make 0) (Some 0%nat) true)
            (Any.make TInt 7%Z) _ _ _ _ _);
    [reflexivity | reflexivity | reflexivity | reflexivity | now vm_compute].
Defined.

(** X9. The path of a value from [run] to [get()].  A task whose [run]
    returns [a] is at the front of the queue; a valid [Result] is
    constructed for it and a worker takes its turn.  The turn returns, the
    task has left the queue, [run] has been called once, and [get()] on the
    [Result] returns [a]. *)
Theorem worker_hands_result_over (p : ThreadPool.t) (h : Heap.t)
    (tk res : addr) (t0 : Task.t) (a : Any.t) (rest : list (option addr)) :
  Heap.tasks h !! tk = Some t0 ->
  Task.run t0 = Task.RunReturns a ->
  ThreadPool.taskque p = Some tk :: rest ->
  ThreadPool.notEmpty p = true ->
  exists p' h',
    (on_snd (Heap.new_Result res (Some tk) true) ;;
     ThreadPool.threadFunc_turn) (p, h) = Returns tt (p', h') /\
    ThreadPool.taskque p' = rest /\
    Heap.run_calls h' = tk :: Heap.run_calls h /\
    exists h'', Heap.with_result res Result.get h' = Returns a h''.
Proof.
  intros Hl Hrun Hq Hne. do 2 eexists. split; [|split; [|split]].
  - unfold bind at 1. unfold on_snd at 1. cbn [fst snd].
    rewrite (new_Result_links h res tk t0 true Hl).
    unfold ThreadPool.threadFunc_turn, bind, on_fst. cbn [fst snd].
    rewrite (threadFunc_locked_front p (Some tk) rest Hne Hq).
    unfold on_snd. cbn [fst snd].
    erewrite exec_run_returns with (res := res);
      [reflexivity
      | cbn [Heap.tasks]; apply lookup_insert_eq
      | reflexivity
      | cbn [Heap.results]; apply lookup_insert_eq
      | exact Hrun
      | now vm_compute].
  - reflexivity.
  - reflexivity.
  - eexists. unfold Heap.with_result. cbn [Heap.results].
    rewrite lookup_insert_eq.
    rewrite get_valid_posted by (cbn; lia || reflexivity). reflexivity.
Qed.

Lemma worker_hands_result_over_front :
  exists p' h',
    (on_snd (Heap.new_Result 0 (Some 0%nat) true) ;;
     ThreadPool.threadFunc_turn)
      (ThreadPool.enqueue (Some 0%nat) (ThreadPool.make true),
       Heap.mk {[ 0%nat := Task.make (Task.RunReturns (Any.make TInt 7%Z)) ]}
         ∅ []) = Returns tt (p', h') /\
    ThreadPool.taskque p' = [] /\
    Heap.run_calls h' = [0%nat] /\
    exists h'',
      Heap.with_result 0 Result.get h' = Returns (Any.make TInt 7%Z) h''.
Proof.
  refine (worker_hands_result_over
            (ThreadPool.enqueue (Some 0%nat) (ThreadPool.make true))
            (Heap.mk
               {[ 0%nat := Task.make (Task.RunReturns (Any.make TInt 7%Z)) ]}
               ∅ [])
            0%nat 0%nat (Task.make (Task.RunReturns (Any.make TInt 7%Z)))
            (Any.make TInt 7%Z) [] _ _ _ _); reflexivity.
Defined.

(** One turn of a worker over tasks that have no [Result]: it takes the
    front of the queue and leaves memory alone, or it waits. *)
Lemma threadFunc_turn_unlinked (p : ThreadPool.t) (h : Heap.t) :
  (forall a tk, Heap.tasks h !! a = Some tk -> Task.result tk = None) ->
  Forall (fun t => forall a, t = Some a -> is_Some (Heap.tasks h !! a))
    (ThreadPool.taskque p) ->
  ThreadPool.taskSize p =
    to_uint (Z.of_nat (length (ThreadPool.taskque p))) ->
  (exists p' front,
     ThreadPool.threadFunc_turn (p, h) = Returns tt (p', h) /\
     ThreadPool.taskque p = front :: ThreadPool.taskque p' /\
     ThreadPool.taskSize p' =
       to_uint (Z.of_nat (length (ThreadPool.taskque p')))) \/
  (ThreadPool.taskque p = [] /\
   ThreadPool.threadFunc_turn (p, h) = Blocks (p, h)) \/
  (ThreadPool.taskque p <> [] /\ ThreadPool.taskSize p = 0%Z /\
   ThreadPool.threadFunc_turn (p, h) = Blocks (p, h)).
Proof.
  intros Hunlinked Hin Hsize.
  unfold ThreadPool.threadFunc_turn, bind, on_fst. cbn [fst snd].
  destruct (threadFunc_locked_cases p)
    as [(task & rest & Hq & Hd)|[Hd|(Hq & Hne & _)]].
  - left. rewrite Hd. eexists. exists task. split; [|split].
    + destruct task as [a|]; [|reflexivity].
      rewrite Hq in Hin. apply Forall_cons in Hin as [Hfront _].
      destruct (Hfront a eq_refl) as [tk Hl].
      unfold on_snd. cbn [fst snd].
      now rewrite (exec_unlinked h a tk Hl (Hunlinked a tk Hl)).
    + exact Hq.
    + cbn [ThreadPool.taskque ThreadPool.taskSize].
      rewrite Hsize, Hq. unfold to_uint. rewrite Zminus_mod_idemp_l.
      f_equal. cbn [length]. lia.
  - rewrite Hd. destruct (ThreadPool.taskque p) as [|front rest] eqn:Hq.
    + right. left. now split.
    + right. right. split; [discriminate|]. split; [|reflexivity].
      unfold ThreadPool.threadFunc_locked in Hd. unfold_monad.
      destruct (ThreadPool.notEmpty p) eqn:Hne.
      * rewrite Hq in Hd. discriminate Hd.
      * unfold ThreadPool.notEmpty in Hne. apply Z.ltb_ge in Hne.
        pose proof (to_uint_range (Z.of_nat (length (front :: rest)))).
        lia.
  - rewrite Hq in Hsize. cbn in Hsize. unfold ThreadPool.notEmpty in Hne.
    rewrite Hsize in Hne. discriminate Hne.
Qed.

(** X10. [submitTask] constructs no [Result], so a task that only went
    through it has a null [result].  Over such tasks a worker never calls
    [run]: however many turns it takes, with a count that agrees with the
    queue and every queued pointer null or pointing to a task, memory is
    left as it was, calls of [run] included, and the worker is either about
    to start its next turn or waiting; it neither throws nor goes wrong. *)
Theorem worker_never_runs_unlinked (n : nat) :
  forall (p : ThreadPool.t) (h : Heap.t),
    (forall a tk, Heap.tasks h !! a = Some tk -> Task.result tk = None) ->
    Forall (fun t => forall a, t = Some a -> is_Some (Heap.tasks h !! a))
      (ThreadPool.taskque p) ->
    ThreadPool.taskSize p =
      to_uint (Z.of_nat (length (ThreadPool.taskque p))) ->
    exists p',
      ThreadPool.threadFunc n (p, h) = Returns tt (p', h) \/
      ThreadPool.threadFunc n (p, h) = Blocks (p', h).
Proof.
  induction n as [|n IH]; intros p h Hunlinked Hin Hsize.
  - exists p. now left.
  - cbn [ThreadPool.threadFunc]. unfold bind.
    destruct (threadFunc_turn_unlinked p h Hunlinked Hin Hsize)
      as [(p1 & front & Hturn & Hq & Hsize1)|[[_ Hturn]|(_ & _ & Hturn)]];
      rewrite Hturn; [|exists p; now right|exists p; now right].
    apply IH; [exact Hunlinked | | exact Hsize1].
    rewrite Hq in Hin. now apply Forall_cons in Hin as [_ Hrest].
Qed.

Lemma worker_never_runs_unlinked_two :
  exists p',
    ThreadPool.threadFunc 3
      (ThreadPool.enqueue None
         (ThreadPool.enqueue (Some 0%nat) (ThreadPool.make true)),
       Heap.mk {[ 0%nat := Task.make (Task.RunThrows "boom") ]} ∅ []) =
      Returns tt
        (p', Heap.mk {[ 0%nat := Task.make (Task.RunThrows "boom") ]} ∅ []) \/
    ThreadPool.threadFunc 3
      (ThreadPool.enqueue None
         (ThreadPool.enqueue (Some 0%nat) (ThreadPool.make true)),
       Heap.mk {[ 0%nat := Task.make (Task.RunThrows "boom") ]} ∅ []) =
      Blocks
        (p', Heap.mk {[ 0%nat := Task.make (Task.RunThrows "boom") ]} ∅ []).
Proof.
  apply (worker_never_runs_unlinked 3).
  - intros a tk Hl. cbn [Heap.tasks] in Hl.
    apply lookup_singleton_Some in Hl as [_ <-]. reflexivity.
  - cbn [ThreadPool.enqueue ThreadPool.taskque ThreadPool.make app].
    constructor; [|constructor; [|constructor]]; intros a Ha.
    + injection Ha as <-. now eexists.
    + discriminate Ha.
  - reflexivity.
Defined.

(** ** ThreadPool: start on any pool *)

Lemma begin_threads_prefix (m : nat) :
  forall (pre l : list Thread.t) its q ts cap mode run,
    (m <= length l)%nat ->
    ThreadPool.begin_threads (seq (length pre) m)
      (ThreadPool.mk (pre ++ l) its q ts cap mode run) =
    Returns tt
      (ThreadPool.mk (pre ++ (Thread.begin <$> take m l) ++ drop m l)
         its q ts cap mode run).
Proof.
  induction m as [|m IH]; intros pre l its q ts cap mode run Hlen.
  - reflexivity.
  - destruct l as [|x l]; [cbn in Hlen; lia|]. cbn in Hlen.
    cbn [seq ThreadPool.begin_threads].
    unfold bind at 1. unfold ThreadPool.begin_thread. unfold_monad.
    cbn [ThreadPool.threads].
    rewrite list_lookup_middle by reflexivity.
    replace (alter Thread.begin (length pre) (pre ++ x :: l))
      with ((pre ++ [Thread.begin x]) ++ l).
    + replace (S (length pre)) with (length (pre ++ [Thread.begin x]))
        by (rewrite length_app; cbn; lia).
      cbn [ThreadPool.initThreadSize ThreadPool.taskque ThreadPool.taskSize
           ThreadPool.taskCapacity ThreadPool.poolMode ThreadPool.isRunning].
      rewrite IH by lia. now rewrite <- app_assoc.
    + rewrite <- app_assoc.
      replace (length pre) with (length pre + 0)%nat at 1 by lia.
      now rewrite alter_app_r.
Qed.

Lemma detached_begin_prefix (m : nat) :
  forall l : list Thread.t,
    (m <= length l)%nat ->
    foldr (fun th n => (Thread.detached th + n)%nat) 0%nat
      ((Thread.begin <$> take m l) ++ drop m l) =
    (foldr (fun th n => (Thread.detached th + n)%nat) 0%nat l + m)%nat.
Proof.
  induction m as [|m IH]; intros l Hlen.
  - rewrite take_0, drop_0. cbn [fmap list_fmap app]. now rewrite Nat.add_0_r.
  - destruct l as [|x l]; [cbn in Hlen; lia|]. cbn in Hlen.
    cbn [take drop fmap list_fmap app foldr Thread.begin Thread.detached].
    rewrite IH by lia. lia.
Qed.

Lemma detached_new_threads (l : list Thread.t) (n : nat) :
  foldr (fun th k => (Thread.detached th + k)%nat) 0%nat
    (l ++ replicate n Thread.make) =
  foldr (fun th k => (Thread.detached th + k)%nat) 0%nat l.
Proof.
  rewrite foldr_app. f_equal.
  induction n as [|n IH]; [reflexivity | exact IH].
Qed.

(** X11. [start(size)] with [size >= 0] returns on any pool.  It appends
    [size] new [Thread] objects and calls [begin] on the objects at the
    indices below [size], counted from the front of the vector: [size] more
    workers run afterwards, the queue and the count are untouched.  On a
    pool that already holds at least [size] objects these are the old ones,
    which get a further OS thread each, and the new objects are never
    begun. *)
Theorem start_adds_workers (p : ThreadPool.t) (size : Z) :
  (0 <= size)%Z ->
  exists p',
    ThreadPool.start size p = Returns tt p' /\
    ThreadPool.threads p' =
      (Thread.begin <$>
         take (Z.to_nat size)
           (ThreadPool.threads p ++ replicate (Z.to_nat size) Thread.make)) ++
      drop (Z.to_nat size)
        (ThreadPool.threads p ++ replicate (Z.to_nat size) Thread.make) /\
    ThreadPool.workers p' = (ThreadPool.workers p + Z.to_nat size)%nat /\
    ThreadPool.initThreadSize p' = size /\
    ThreadPool.taskque p' = ThreadPool.taskque p /\
    ThreadPool.taskSize p' = ThreadPool.taskSize p /\
    ((Z.to_nat size <= length (ThreadPool.threads p))%nat ->
     ThreadPool.threads p' =
       (Thread.begin <$> take (Z.to_nat size) (ThreadPool.threads p)) ++
       drop (Z.to_nat size) (ThreadPool.threads p) ++
       replicate (Z.to_nat size) Thread.make).
Proof.
  intros Hsize. eexists. split.
  - unfold ThreadPool.start.
    destruct (size <? 0)%Z eqn:Hneg; [apply Z.ltb_lt in Hneg; lia|].
    unfold bind at 1 2. unfold get_state, put_state.
    apply (begin_threads_prefix (Z.to_nat size) []
             (ThreadPool.threads p ++ replicate (Z.to_nat size) Thread.make)).
    rewrite length_app, length_replicate. lia.
  - cbn [ThreadPool.threads ThreadPool.initThreadSize ThreadPool.taskque
         ThreadPool.taskSize].
    rewrite !app_nil_l.
    split; [reflexivity|]. split.
    + unfold ThreadPool.workers. cbn [ThreadPool.threads].
      rewrite detached_begin_prefix
        by (rewrite length_app, length_replicate; lia).
      now rewrite detached_new_threads.
    + do 3 (split; [reflexivity|]). intros Hold.
      rewrite take_app_le by exact Hold.
      now rewrite drop_app_le by exact Hold.
Qed.

Lemma start_adds_workers_again :
  exists p1 p2,
    ThreadPool.start 2 (ThreadPool.make true) = Returns tt p1 /\
    ThreadPool.start 1 p1 = Returns tt p2 /\
    ThreadPool.threads p2 = [Thread.mk 2; Thread.mk 1; Thread.mk 0] /\
    ThreadPool.workers p2 = 3%nat.
Proof.
  destruct (start_adds_workers (ThreadPool.make true) 2) as (p1 & H1 & Ht1 & _);
    [lia|].
  destruct (start_adds_workers p1 1) as (p2 & H2 & Ht2 & Hw2 & _); [lia|].
  exists p1, p2. split; [exact H1|]. split; [exact H2|].
  rewrite Hw2. unfold ThreadPool.workers. rewrite Ht2, Ht1. now vm_compute.
Defined.

(** ** ThreadPool: what runs of the queue keep *)








(** ** ThreadPool: setTaskCapacity and the queue *)

(** X15. [setTaskCapacity] writes the count, so after a call with a value
    that is not a multiple of [2^32] on a pool whose queue is empty, a
    worker no longer waits: its locked block goes on to [front()] on the
    empty queue, which is undefined. *)
Theorem setTaskCapacity_then_worker_undefined (capacity : Z)
    (p : ThreadPool.t) :
  ThreadPool.taskque p = [] ->
  to_uint capacity <> 0%Z ->
  (ThreadPool.setTaskCapacity capacity ;; ThreadPool.threadFunc_locked) p =
    Undefined.
Proof.
  intros Hq Hnz. pose proof (to_uint_range capacity) as Hrange.
  unfold ThreadPool.setTaskCapacity, ThreadPool.threadFunc_locked.
  unfold_monad. unfold ThreadPool.notEmpty. cbn [ThreadPool.taskSize].
  destruct (0 <? to_uint capacity)%Z eqn:Hpos; [|apply Z.ltb_ge in Hpos; lia].
  cbn [ThreadPool.taskque]. now rewrite Hq.
Qed.

Lemma setTaskCapacity_then_worker_undefined_eight :
  (ThreadPool.setTaskCapacity 8 ;; ThreadPool.threadFunc_locked)
    (ThreadPool.make true) = Undefined.
Proof.
  apply setTaskCapacity_then_worker_undefined; [reflexivity | now vm_compute].
Defined.

Lemma setTaskCapacity_returns (capacity : Z) (p : ThreadPool.t) :
  ThreadPool.setTaskCapacity capacity p =
    Returns tt
      (ThreadPool.mk (ThreadPool.threads p) (ThreadPool.initThreadSize p)
         (ThreadPool.taskque p) (to_uint capacity) (ThreadPool.taskCapacity p)
         (ThreadPool.poolMode p) (ThreadPool.isRunning p)).
Proof. reflexivity. Qed.

(** X16. After [setTaskCapacity] with a value at or above the capacity
    (as [unsigned]; a negative value counts as a large one), the pool looks
    full whatever its queue holds: a call of [submitTask] waits, and when
    its timeout elapses its block enqueues the task. *)
Theorem setTaskCapacity_blocks_submission (capacity : Z) (p : ThreadPool.t)
    (task : option addr) :
  (to_uint (ThreadPool.taskCapacity p) <= to_uint capacity)%Z ->
  (ThreadPool.setTaskCapacity capacity ;; ThreadPool.submitTask task false) p =
    Blocks
      (ThreadPool.mk (ThreadPool.threads p) (ThreadPool.initThreadSize p)
         (ThreadPool.taskque p) (to_uint capacity) (ThreadPool.taskCapacity p)
         (ThreadPool.poolMode p) (ThreadPool.isRunning p)) /\
  (ThreadPool.setTaskCapacity capacity ;;
   ThreadPool.submitTask_locked task true) p =
    Returns tt
      (ThreadPool.mk (ThreadPool.threads p) (ThreadPool.initThreadSize p)
         (ThreadPool.taskque p ++ [task]) (to_uint (to_uint capacity + 1))
         (ThreadPool.taskCapacity p) (ThreadPool.poolMode p)
         (ThreadPool.isRunning p)).
Proof.
  intros Hle. apply Z.ltb_ge in Hle.
  split; unfold bind at 1; rewrite setTaskCapacity_returns.
  - now apply submitTask_waits.
  - now rewrite submitTask_locked_timeout.
Qed.

Lemma setTaskCapacity_blocks_submission_negative :
  (ThreadPool.setTaskCapacity (-1) ;; ThreadPool.submitTask (Some 0%nat) false)
    (ThreadPool.make true) =
  Blocks (ThreadPool.mk [] 0 [] 4294967295 1024 MODE_FIXED true).
Proof.
  destruct (setTaskCapacity_blocks_submission (-1) (ThreadPool.make true)
              (Some 0%nat)) as [Hwaits _]; [now vm_compute | exact Hwaits].
Defined.

(** ** ThreadPool: the bound, and the two ends of the queue *)





(** X20. Backpressure and its release.  On a pool whose count equals the
    capacity a call of [submitTask] waits; one locked block of a worker
    takes the front of the queue, and after it the wait is over: the block
    of the submission goes through, with the task at the back of the queue
    and the count at the capacity again. *)
Theorem dequeue_releases_submitter (p : ThreadPool.t) (task front : option addr)
    (rest : list (option addr)) :
  ThreadPool.taskque p = front :: rest ->
  ThreadPool.taskSize p = to_uint (ThreadPool.taskCapacity p) ->
  (0 < ThreadPool.taskSize p)%Z ->
  ThreadPool.submitTask task false p = Blocks p /\
  exists p1,
    ThreadPool.threadFunc_locked p = Returns front p1 /\
    ThreadPool.submitTask_locked task false p1 =
      Returns tt (ThreadPool.enqueue task p1) /\
    ThreadPool.taskque (ThreadPool.enqueue task p1) = rest ++ [task] /\
    ThreadPool.taskSize (ThreadPool.enqueue task p1) =
      to_uint (ThreadPool.taskCapacity p).
Proof.
  intros Hq Hfull Hpos.
  pose proof (to_uint_range (ThreadPool.taskCapacity p)) as Hcap.
  split.
  - apply submitTask_waits. unfold ThreadPool.notFull. apply Z.ltb_ge. lia.
  - eexists. split; [|split; [|split]].
    + apply threadFunc_locked_front; [|exact Hq].
      unfold ThreadPool.notEmpty. now apply Z.ltb_lt.
    + apply submitTask_locked_space. unfold ThreadPool.notFull.
      cbn [ThreadPool.taskSize ThreadPool.taskCapacity].
      apply Z.ltb_lt. rewrite to_uint_small; lia.
    + reflexivity.
    + cbn [ThreadPool.enqueue ThreadPool.taskSize].
      rewrite (to_uint_small (ThreadPool.taskSize p - 1)) by lia.
      rewrite Z.sub_add, Hfull. apply to_uint_small. exact Hcap.
Qed.

Lemma dequeue_releases_submitter_full :
  ThreadPool.submitTask (Some 1%nat) false
    (ThreadPool.mk [] 0 (replicate 1024 (Some 0%nat)) 1024 1024 MODE_FIXED
       true) =
  Blocks
    (ThreadPool.mk [] 0 (replicate 1024 (Some 0%nat)) 1024 1024 MODE_FIXED
       true).
Proof.
  destruct (dequeue_releases_submitter
              (ThreadPool.mk [] 0 (replicate 1024 (Some 0%nat)) 1024 1024
                 MODE_FIXED true)
              (Some 1%nat) (Some 0%nat) (replicate 1023 (Some 0%nat)))
    as [Hwaits _]; [reflexivity | reflexivity | reflexivity | exact Hwaits].
Defined.

(** ** ThreadPool: the mode *)



